(** * femsa-mobile: the product catalog view model and the component examples

    A shallow embedding of

    - [src/lab-3/part-4/ProductCatalogViewModel.ts] (the observer-pattern
      view model), with the render subscriber of
      [src/lab-3/part-4/renderProductList.ts] and the demo script, and
    - the [List], [Button] and [InputField] examples of
      [src/lab-1/component-library/README.md],

    followed by the properties that the specification states about them. *)

From Stdlib Require Import Ascii QArith Qcanon.
From stdpp Require Import base option list gmap strings numbers.

Local Open Scope string_scope.
Local Open Scope Z_scope.
Local Open Scope list_scope.

(** ** Completions

    A TypeScript call either returns a value or throws.  Thrown values are
    represented by their message. *)

Inductive Result (A : Type) : Type :=
  | Ok (a : A)
  | Err (msg : string).
Arguments Ok {A} a.
Arguments Err {A} msg.

(** ** Data model *)

(** Object references.  Products are objects: the catalog array holds
    references to them, [product.quantity = q] writes through the reference,
    and the same object may be reachable from several array slots. *)
Abbreviation Loc := positive.

(** Callback references.  [removeObserver] compares callbacks with [!==], that
    is by reference identity, so a subscriber is represented by its
    reference; what the closure does when called is given separately. *)
Abbreviation ObsRef := nat.

(** Modelled from the spec: the [Product] class is not part of the sources
    (only [new Product(1, 'Apple', 0.5, 100)] in the demo script and the field
    reads [p.id], [product.name], [product.price], [product.quantity] are).
    The spec gives: identifier (integer), name (string), price (decimal),
    quantity (integer).  The TypeScript [number]s [id] and [quantity] are
    therefore integers here, and [===] on them is equality on [Z]. *)
Record Product : Type := mkProduct {
  id : Z;
  name : string;
  price : Qc;
  quantity : Z
}.

(** [product.quantity = newQuantity] *)
Definition set_quantity (q : Z) (p : Product) : Product :=
  {| id := id p; name := name p; price := price p; quantity := q |}.

(** The two private fields of the class.  [products] holds references in
    array order, [observers] callback references in array order. *)
Record ProductCatalogViewModel : Type := mkViewModel {
  products : list Loc;
  observers : list ObsRef
}.

(** ** The view model, over arbitrary subscribers *)

Section ViewModel.

(** Whatever the subscribers act on outside the view model (the DOM, for the
    render subscriber). *)
Context {Env : Type}.

(** What calling a subscriber does.  A subscriber takes no argument; it
    re-fetches the state through [getProducts] and reads the products'
    fields, acts on its environment, and returns or throws.  As the
    subscriber of the sources does, subscribers do not call back into the
    mutating methods of the view model and do not write to products. *)
Variable body : ObsRef → list Product → Env → Result unit * Env.

(** The state a call runs in: the object heap, the view model instance, the
    subscribers' environment, and the history of subscriber invocations
    (oldest first), which is what the notification properties talk about. *)
Record World : Type := mkWorld {
  heap : gmap Loc Product;
  vm : ProductCatalogViewModel;
  env : Env;
  calls : list ObsRef
}.

(** Methods are state transformers that return or throw; the state reached
    when an exception leaves a method is kept, as JavaScript keeps it. *)
Definition M (A : Type) : Type := World → Result A * World.

Definition ret {A} (a : A) : M A := fun w => (Ok a, w).

Definition bind {A B} (m : M A) (k : A → M B) : M B := fun w =>
  match m w with
  | (Ok a, w') => k a w'
  | (Err e, w') => (Err e, w')
  end.

Notation "m1 ;; m2" := (bind m1 (fun _ => m2))
  (at level 100, right associativity).

Definition set_heap (h : gmap Loc Product) (w : World) : World :=
  {| heap := h; vm := vm w; env := env w; calls := calls w |}.
Definition set_products (ps : list Loc) (w : World) : World :=
  {| heap := heap w;
     vm := {| products := ps; observers := observers (vm w) |};
     env := env w; calls := calls w |}.
Definition set_observers (os : list ObsRef) (w : World) : World :=
  {| heap := heap w;
     vm := {| products := products (vm w); observers := os |};
     env := env w; calls := calls w |}.

(** [constructor()]: both arrays empty. *)
Definition constructor : ProductCatalogViewModel :=
  {| products := []; observers := [] |}.

(** [getProducts()]: the array of references itself. *)
Definition getProducts (w : World) : list Loc := products (vm w).

(** The products a reader of [getProducts()] sees, slot by slot. *)
Definition view (w : World) : list Product :=
  omap (fun l => heap w !! l) (getProducts w).

(** [observer()]: the call is recorded, then the closure runs. *)
Definition invoke (o : ObsRef) : M unit := fun w =>
  let '(r, e) := body o (view w) (env w) in
  (r, {| heap := heap w; vm := vm w; env := e; calls := calls w ++ [o] |}).

(** [for (const observer of obs) { observer(); }] *)
Fixpoint for_of (obs : list ObsRef) : M unit :=
  match obs with
  | [] => ret tt
  | o :: rest => invoke o ;; for_of rest
  end.

(** [notifyObservers()] *)
Definition notifyObservers : M unit := fun w =>
  for_of (observers (vm w)) w.

(** [addProduct(product)]: push, then notify. *)
Definition addProduct (product : Loc) : M unit := fun w =>
  notifyObservers (set_products (products (vm w) ++ [product]) w).

(** The predicate [p => p.id === productId] at the object behind [l].  A
    reference always denotes an object; a location outside the heap matches
    nothing. *)
Definition has_id (h : gmap Loc Product) (productId : Z) (l : Loc) : bool :=
  match h !! l with
  | Some p => bool_decide (id p = productId)
  | None => false
  end.

(** [this.products.find(p => p.id === productId)]: the first match in array
    order, or [undefined]. *)
Definition find_product (productId : Z) (w : World) : option Loc :=
  List.find (has_id (heap w) productId) (products (vm w)).

(** [updateQuantity(productId, newQuantity)]: an object is truthy, so the
    guard [if (product)] is exactly "found". *)
Definition updateQuantity (productId newQuantity : Z) : M unit := fun w =>
  match find_product productId w with
  | Some l =>
      notifyObservers (set_heap (alter (set_quantity newQuantity) l (heap w)) w)
  | None => (Ok tt, w)
  end.

(** [addObserver(observer)]: push. *)
Definition addObserver (observer : ObsRef) : M unit := fun w =>
  (Ok tt, set_observers (observers (vm w) ++ [observer]) w).

(** [removeObserver(observer)]:
    [this.observers.filter(obs => obs !== observer)]. *)
Definition removeObserver (observer : ObsRef) : M unit := fun w =>
  (Ok tt, set_observers (filter (fun obs => obs ≠ observer) (observers (vm w))) w).

(** *** Calls from outside

    The two mutating methods, and a script of calls made one after the
    other by a caller that goes on after a call that threw. *)

Inductive Mutation : Type :=
  | AddProduct (product : Loc)
  | UpdateQuantity (productId newQuantity : Z).

Definition mutate (m : Mutation) : M unit :=
  match m with
  | AddProduct product => addProduct product
  | UpdateQuantity productId newQuantity => updateQuantity productId newQuantity
  end.

Inductive Call : Type :=
  | Mutate (m : Mutation)
  | AddObserver (observer : ObsRef)
  | RemoveObserver (observer : ObsRef).

Definition call (c : Call) : M unit :=
  match c with
  | Mutate m => mutate m
  | AddObserver observer => addObserver observer
  | RemoveObserver observer => removeObserver observer
  end.

Definition script (cs : list Call) (w : World) : World :=
  fold_left (fun w c => (call c w).2) cs w.

(** The references that the calls of a script push onto the catalog, in
    the order of the calls. *)
Definition pushed (c : Call) : list Loc :=
  match c with
  | Mutate (AddProduct product) => [product]
  | _ => []
  end.

Definition added (cs : list Call) : list Loc := concat (pushed <$> cs).

(** [p1; p2; ...] added to a view model in this order, stopping at the first
    call that throws. *)
Fixpoint addProducts (ps : list Loc) : M unit :=
  match ps with
  | [] => ret tt
  | p :: rest => addProduct p ;; addProducts rest
  end.

(** A world around [new ProductCatalogViewModel()]. *)
Definition new_world (h : gmap Loc Product) (e : Env) : World :=
  {| heap := h; vm := constructor; env := e; calls := [] |}.

(** *** Vocabulary of the properties *)

(** The call returned (did not throw). *)
Definition returns (x : Result unit * World) : Prop := x.1 = Ok tt.

(** The invocations a call added to the history. *)
Definition invoked_by (w w' : World) (l : list ObsRef) : Prop :=
  calls w' = calls w ++ l.

(** [productId] occurs in the catalog. *)
Definition in_catalog (productId : Z) (w : World) : Prop :=
  ∃ l p, l ∈ products (vm w) ∧ heap w !! l = Some p ∧ id p = productId.

(** The mutations that change the catalog: every [addProduct], and
    [updateQuantity] of an id that occurs. *)
Definition takes_effect (m : Mutation) (w : World) : Prop :=
  match m with
  | AddProduct _ => True
  | UpdateQuantity productId _ => in_catalog productId w
  end.

(** Every registered subscriber returns normally, whatever it is shown. *)
Definition well_behaved (w : World) : Prop :=
  ∀ o, o ∈ observers (vm w) → ∀ ps e, (body o ps e).1 = Ok tt.

End ViewModel.

Arguments World : clear implicits.
Arguments M : clear implicits.

(** ** The render subscriber and the demo script *)

(** What [renderProductList] puts into one [<li>]: the three values that the
    template [`${product.name} - $${product.price} - Quantity:
    ${product.quantity}`] interpolates (the conversion of numbers to text is
    not modelled). *)
Record Li : Type := mkLi {
  li_name : string;
  li_price : Qc;
  li_quantity : Z
}.

Definition li_of (product : Product) : Li :=
  {| li_name := name product; li_price := price product;
     li_quantity := quantity product |}.

(** The part of the document the subscriber touches: the children of the
    element with id [product-list], or [None] when [getElementById] finds no
    such element. *)
Abbreviation DOM := (option (list Li)).

(** [renderProductList(viewModel)], given what [viewModel.getProducts()]
    shows: when the element exists it is emptied and refilled with one item
    per product, in order; otherwise nothing happens. *)
Definition renderProductList (shown : list Product) (d : DOM) : Result unit * DOM :=
  match d with
  | Some _ => (Ok tt, Some (li_of <$> shown))
  | None => (Ok tt, None)
  end.

Module Demo.

(** The script registers one closure, [() => renderProductList(viewModel)]. *)
Definition render : ObsRef := 0%nat.

Definition body (o : ObsRef) : list Product → DOM → Result unit * DOM :=
  renderProductList.

(** [new Product(1, 'Apple', 0.5, 100)] and
    [new Product(2, 'Banana', 0.3, 150)]. *)
Definition apple : Product :=
  {| id := 1; name := "Apple"; price := Q2Qc (1 # 2)%Q; quantity := 100 |}.
Definition banana : Product :=
  {| id := 2; name := "Banana"; price := Q2Qc (3 # 10)%Q; quantity := 150 |}.

(** The two objects of the script, at the references [1] and [2]. *)
Definition objects : gmap Loc Product := <[2%positive := banana]> {[1%positive := apple]}.

(** A page that has the list element, and the fresh view model. *)
Definition start : World DOM := new_world objects (Some []).

(** The script up to the timer. *)
Definition loaded : World DOM :=
  script body
    [AddObserver render; Mutate (AddProduct 1%positive); Mutate (AddProduct 2%positive)]
    start.

(** The timer's callback: [viewModel.updateQuantity(1, 80)]. *)
Definition after_timer : World DOM :=
  script body [Mutate (UpdateQuantity 1 80)] loaded.

(** A subscriber that throws, next to one that counts its calls; used to
    exercise the properties on subscribers that fail. *)
Definition failing : ObsRef := 7%nat.

Definition counting_body (o : ObsRef) (shown : list Product) (n : nat)
  : Result unit * nat :=
  if decide (o = failing) then (Err "subscriber failed", n) else (Ok tt, S n).

(** Two distinct objects with the same id, both in the catalog, and two
    subscribers of which the second throws. *)
Definition twin_a : Product :=
  {| id := 5; name := "Twin A"; price := Q2Qc (1 # 4)%Q; quantity := 10 |}.
Definition twin_b : Product :=
  {| id := 5; name := "Twin B"; price := Q2Qc (3 # 4)%Q; quantity := 20 |}.

Definition twins : World nat :=
  {| heap := <[2%positive := twin_b]> {[1%positive := twin_a]};
     vm := {| products := [1%positive; 2%positive];
              observers := [3%nat; failing] |};
     env := 0%nat; calls := [] |}.

(** One object pushed twice: both array slots hold the same reference. *)
Definition pushed_twice : World nat :=
  {| heap := {[1%positive := twin_a]};
     vm := {| products := [1%positive; 1%positive]; observers := [] |};
     env := 0%nat; calls := [] |}.

(** The same callback registered twice, around another one. *)
Definition registered_twice : World nat :=
  {| heap := {[1%positive := twin_a]};
     vm := {| products := [1%positive]; observers := [3%nat; 4%nat; 3%nat] |};
     env := 0%nat; calls := [] |}.

End Demo.

(** ** The [Button] example of the component library *)

Module Button.
Section Button.

(** The type parameter of the component and [String(value)]. *)
Context {T : Type}.
Variable String_of : T → string.

(** [ButtonProps<T>]: [value] is required; [onClick], [disabled] and
    [variant] come from [Partial<...>], so each may be [undefined] ([None]).
    A variant is a string; the type [Variants] allows three of them, but
    the guard below is there because the runtime value may be any. A click
    handler is a callback reference. *)
Record ButtonProps : Type := mkProps {
  value : T;
  onClick : option nat;
  disabled : option bool;
  variant : option string
}.

(** The entries of [styles] that the button can carry. *)
Inductive Style : Type := styles_button | styles_disabled.

(** The element the component returns. *)
Record TouchableOpacity : Type := mkTouchable {
  style : list Style;
  onPress : option nat;
  disabled_attr : option bool;
  text : string
}.

(** [variant || (empty string)]: [undefined] and the empty string are
    falsy. *)
Definition or_empty (variant : option string) : string :=
  match variant with
  | Some s => if decide (s = EmptyString) then EmptyString else s
  | None => EmptyString
  end.

(** [["primary", "secondary", "tertiary"].includes(...)] of that string. *)
Definition isValidVariant (variant : option string) : bool :=
  bool_decide (or_empty variant ∈ ["primary"; "secondary"; "tertiary"]).

(** [[styles.button, disabled && styles.disabled]] *)
Definition style_of (disabled : option bool) : list Style :=
  match disabled with
  | Some true => [styles_button; styles_disabled]
  | _ => [styles_button]
  end.

Definition Button (props : ButtonProps) : Result TouchableOpacity :=
  if negb (isValidVariant (variant props)) then Err "Invalid variant"
  else Ok {| style := style_of (disabled props);
             onPress := onClick props;
             disabled_attr := disabled props;
             text := String_of (value props) |}.

End Button.
End Button.

(** ** The [InputField] example of the component library *)

Module InputField.

(** The double quote character inside the template literals. *)
Definition dquote : string := String "034"%char EmptyString.

(** [getErrorMessage(value, error)].  [error] has type [ErrorType], the two
    strings ["minLength"] and ["maxLength"]; the [default] branch is kept. *)
Definition getErrorMessage (value error : string) : string :=
  if decide (error = "minLength") then
    "The value " +:+ dquote +:+ value +:+ dquote +:+ " is too short"
  else if decide (error = "maxLength") then
    "The value " +:+ dquote +:+ value +:+ dquote +:+ " is too long"
  else "Invalid value".

(** The two [useState] cells of the component and, for the optional
    [onChange] prop, the values it has been called with (oldest first). *)
Record State : Type := mkState {
  value : string;
  errorMessage : string;
  reported : list string
}.

(** [handleChange(value)]; [has_onChange] tells whether the [onChange] prop
    was given ([onChange?.(value)]).  [value.length] counts UTF-16 code
    units; a character of the string here stands for one code unit. *)
Definition handleChange (has_onChange : bool) (v : string) (st : State) : State :=
  {| value := v;
     errorMessage :=
       if decide (Z.of_nat (String.length v) < 5)
       then getErrorMessage v "minLength"
       else EmptyString;
     reported := if has_onChange then reported st ++ [v] else reported st |}.

(** The last character of a string, to tell messages apart by their
    endings. *)
Fixpoint last_char (s : string) : option ascii :=
  match s with
  | EmptyString => None
  | String c EmptyString => Some c
  | String _ rest => last_char rest
  end.

(** [getInitialValue(value)] for [value: string | number]:
    [typeof value === "number" ? value.toString() : value].  The numbers and
    [Number.prototype.toString] are parameters. *)
Section Initial.

Context {number : Type}.
Variable toString : number → string.

Definition getInitialValue (initialValue : string + number) : string :=
  match initialValue with
  | inl s => s
  | inr n => toString n
  end.

(** The state at the first render:
    [useState(getInitialValue(initialValue))] and [useState] of the empty
    string; [onChange] has not been called. *)
Definition initial (initialValue : string + number) : State :=
  {| value := getInitialValue initialValue;
     errorMessage := EmptyString;
     reported := [] |}.

End Initial.

(** The user changes the text several times: [onChangeText] runs
    [handleChange] on each text in turn. *)
Definition handleChanges (has_onChange : bool) (vs : list string) (st : State)
  : State :=
  fold_left (fun st v => handleChange has_onChange v st) vs st.

End InputField.

(** ** The [List] example of the component library *)

Module ListComponent.

(** The values an [Array<unknown>] can hold, as far as [typeof] tells them
    apart.  Only the payload of a string matters below. *)
Inductive JsValue : Type :=
  | JsString (s : string)
  | JsNumber (n : Z)
  | JsBoolean (b : bool)
  | JsUndefined
  | JsNull
  | JsBigInt (n : Z)
  | JsSymbol (ref : positive)
  | JsFunction (ref : positive)
  | JsObject (ref : positive).

Definition typeof (v : JsValue) : string :=
  match v with
  | JsString _ => "string"
  | JsNumber _ => "number"
  | JsBoolean _ => "boolean"
  | JsUndefined => "undefined"
  | JsNull => "object"
  | JsBigInt _ => "bigint"
  | JsSymbol _ => "symbol"
  | JsFunction _ => "function"
  | JsObject _ => "object"
  end.

(** [items.filter((item): item is string => typeof item === "string")]; the
    type guard narrows the static type only, the elements are the values
    themselves. *)
Definition filterStrings (items : list JsValue) : list JsValue :=
  filter (fun item => typeof item = "string") items.

Section List.

(** [String(item)] returns a string as it is; what it returns for other
    values is a parameter. *)
Variable String_of_other : JsValue → string.

Definition String_ (item : JsValue) : string :=
  match item with
  | JsString s => s
  | _ => String_of_other item
  end.

(** [Props<T>]: the items and the optional [filter]. *)
Record Props : Type := mkProps {
  items : list JsValue;
  filter_prop : option (JsValue → bool)
}.

(** The [<View>] with its [<FlatList>]: the [data] prop and the text of the
    [<Text>] that [renderItem] makes for each element of [data]. *)
Record View : Type := mkView {
  data : list JsValue;
  texts : list string
}.

(** The component destructures [items] only;
    [items.length > 0 ? <View>...</View> : null]. *)
Definition List (props : Props) : option View :=
  if decide (0 < Z.of_nat (length (items props))) then
    Some {| data := filterStrings (items props);
            texts := String_ <$> filterStrings (items props) |}
  else None.

End List.

End ListComponent.

(** * Properties of the view model *)

Section ViewModelFacts.

Context {Env : Type}.
Variable body : ObsRef → list Product → Env → Result unit * Env.

Implicit Types (w : World Env) (o f g : ObsRef) (l : Loc) (p : Product).

(** ** The notification loop *)

(** One pass over [obs]: the heap and the view model are not touched, the
    invocations made are a prefix of [obs], all of [obs] when the loop
    completes, and an exception leaving the loop was thrown by one of the
    subscribers. *)
Lemma for_of_spec obs w :
  let x := for_of body obs w in
  heap x.2 = heap w ∧ vm x.2 = vm w ∧
  ∃ done, invoked_by w x.2 done ∧ done `prefix_of` obs ∧
    (x.1 = Ok tt → done = obs) ∧
    (∀ msg, x.1 = Err msg → ∃ o ps e, o ∈ obs ∧ (body o ps e).1 = Err msg).
Proof.
  revert w. induction obs as [|o rest IH]; intros w; cbn.
  - repeat split. exists []. unfold invoked_by.
    rewrite app_nil_r. repeat split; [done | discriminate].
  - unfold bind, invoke.
    destruct (body o (view w) (env w)) as [[[]|msg] e] eqn:Hb.
    + specialize (IH {| heap := heap w; vm := vm w; env := e;
                        calls := calls w ++ [o] |}).
      cbn in IH. destruct IH as (Hh & Hv & done & Hc & Hp & Hok & Herr).
      repeat split; [done | done |].
      exists (o :: done). unfold invoked_by in *. cbn in Hc.
      rewrite Hc, <- app_assoc. repeat split.
      * by apply prefix_cons.
      * intros H. by rewrite (Hok H).
      * intros m H. destruct (Herr m H) as (o' & ps & e' & Hin & Ho').
        exists o', ps, e'. split; [by apply list_elem_of_further | done].
    + cbn. repeat split. exists [o]. unfold invoked_by. cbn.
      repeat split.
      * apply prefix_cons, prefix_nil.
      * discriminate.
      * intros m [= <-]. exists o, (view w), (env w).
        split; [apply list_elem_of_here | by rewrite Hb].
Qed.

(** When no subscriber in [obs] throws, the loop completes. *)
Lemma for_of_returns obs w :
  (∀ o, o ∈ obs → ∀ ps e, (body o ps e).1 = Ok tt) →
  (for_of body obs w).1 = Ok tt.
Proof.
  revert w. induction obs as [|o rest IH]; intros w Hobs; [done|].
  cbn. unfold bind, invoke.
  pose proof (Hobs o (list_elem_of_here _ _) (view w) (env w)) as Ho.
  destruct (body o (view w) (env w)) as [r e]. cbn in Ho. subst r.
  apply IH. intros o' Hin. apply Hobs. by apply list_elem_of_further.
Qed.

Lemma notifyObservers_spec w :
  let x := notifyObservers body w in
  heap x.2 = heap w ∧ vm x.2 = vm w ∧
  ∃ done, invoked_by w x.2 done ∧ done `prefix_of` observers (vm w) ∧
    (returns x → done = observers (vm w)) ∧
    (∀ msg, x.1 = Err msg →
       ∃ o ps e, o ∈ observers (vm w) ∧ (body o ps e).1 = Err msg).
Proof. apply for_of_spec. Qed.

(** ** The search of [updateQuantity] *)

Lemma has_id_true h productId l :
  has_id h productId l = true ↔ ∃ p, h !! l = Some p ∧ id p = productId.
Proof.
  unfold has_id. destruct (h !! l) as [p|].
  - rewrite bool_decide_eq_true. split.
    + intros Hid. by exists p.
    + by intros (p' & [= <-] & Hid).
  - split; [done|]. by intros (p' & ? & _).
Qed.

(** [find] returns the first reference, in array order, whose object has the
    id. *)
Lemma find_product_Some productId w l :
  find_product productId w = Some l ↔
  ∃ before after,
    products (vm w) = before ++ l :: after ∧
    has_id (heap w) productId l = true ∧
    ∀ l', l' ∈ before → has_id (heap w) productId l' = false.
Proof.
  unfold find_product. generalize (products (vm w)) as ps.
  induction ps as [|x ps IH]; cbn.
  - split; [done|]. intros ([|??] & ? & ? & _); done.
  - destruct (has_id (heap w) productId x) eqn:Hx.
    + split.
      * intros [= <-]. exists [], ps. repeat split; [done|].
        intros l' Hl'. by apply elem_of_nil in Hl'.
      * intros ([|y before] & after & Heq & Hl & Hbefore).
        -- by injection Heq as -> _.
        -- injection Heq as <- _.
           rewrite (Hbefore x (list_elem_of_here _ _)) in Hx. done.
    + rewrite IH. split.
      * intros (before & after & -> & Hl & Hbefore).
        exists (x :: before), after. repeat split; [done|].
        intros l' [->|Hl']%elem_of_cons; [done | by apply Hbefore].
      * intros ([|y before] & after & Heq & Hl & Hbefore).
        -- injection Heq as -> _. congruence.
        -- injection Heq as <- ->. exists before, after.
           repeat split; [done|].
           intros l' Hl'. apply Hbefore. by apply list_elem_of_further.
Qed.

(** [find] returns [undefined] exactly when the id does not occur. *)
Lemma find_product_None productId w :
  find_product productId w = None ↔ ¬ in_catalog productId w.
Proof.
  unfold find_product, in_catalog. split.
  - intros Hnone (l & p & Hin & Hl & Hid).
    apply list_elem_of_In in Hin.
    pose proof (find_none _ _ Hnone l Hin) as Hfalse.
    assert (has_id (heap w) productId l = true) as Htrue
      by (apply has_id_true; eauto).
    congruence.
  - intros Hnot.
    destruct (List.find _ _) as [l|] eqn:Hfind; [|done].
    destruct (find_some _ _ Hfind) as [Hin Hl].
    apply has_id_true in Hl as (p & Hp & Hid).
    destruct Hnot. exists l, p. by rewrite list_elem_of_In.
Qed.

Lemma find_product_in_catalog productId w :
  in_catalog productId w ↔ ∃ l, find_product productId w = Some l.
Proof.
  destruct (find_product productId w) as [l|] eqn:Hfind.
  - split; [eauto|]. intros _.
    apply find_product_Some in Hfind as (before & after & Hps & Hl & _).
    apply has_id_true in Hl as (p & Hp & Hid).
    exists l, p. rewrite Hps. repeat split; [|done|done].
    apply elem_of_app. right. apply list_elem_of_here.
  - split; [|intros [? ?]; done].
    intros Hin. by apply find_product_None in Hfind.
Qed.


(** ** The two mutating methods *)

Lemma addProduct_unfold product w :
  addProduct body product w =
  notifyObservers body (set_products (products (vm w) ++ [product]) w).
Proof. done. Qed.

Lemma updateQuantity_found productId newQuantity w l :
  find_product productId w = Some l →
  updateQuantity body productId newQuantity w =
  notifyObservers body
    (set_heap (alter (set_quantity newQuantity) l (heap w)) w).
Proof. intros H. unfold updateQuantity. by rewrite H. Qed.

Lemma updateQuantity_not_found productId newQuantity w :
  ¬ in_catalog productId w →
  updateQuantity body productId newQuantity w = (Ok tt, w).
Proof.
  intros H%find_product_None. unfold updateQuantity. by rewrite H.
Qed.

(** What either mutation does to the subscribers: the list is left as it
    is; the invocations made are a prefix of it, all of it when the mutation
    takes effect and the call returns, none when it takes no effect; and
    only a subscriber can make the call throw. *)
Lemma mutate_spec m w :
  let x := mutate body m w in
  observers (vm x.2) = observers (vm w) ∧
  ∃ done, invoked_by w x.2 done ∧ done `prefix_of` observers (vm w) ∧
    (takes_effect m w → returns x → done = observers (vm w)) ∧
    (¬ takes_effect m w → x = (Ok tt, w)) ∧
    (∀ msg, x.1 = Err msg →
       takes_effect m w ∧
       ∃ o ps e, o ∈ observers (vm w) ∧ (body o ps e).1 = Err msg).
Proof.
  destruct m as [product|productId newQuantity]; cbv zeta; unfold mutate.
  - rewrite addProduct_unfold.
    destruct (notifyObservers_spec
                (set_products (products (vm w) ++ [product]) w))
      as (_ & Hv & done & Hc & Hp & Hok & Herr).
    split; [by rewrite Hv|].
    exists done. split; [exact Hc|]. split; [exact Hp|].
    split; [intros _; exact Hok|]. split.
    + intros Hnot. by destruct Hnot.
    + intros msg Hmsg. split; [done|]. exact (Herr msg Hmsg).
  - destruct (find_product productId w) as [l|] eqn:Hfind.
    + assert (in_catalog productId w) as Hin
        by (apply find_product_in_catalog; eauto).
      rewrite (updateQuantity_found _ _ _ _ Hfind).
      destruct (notifyObservers_spec
                  (set_heap (alter (set_quantity newQuantity) l (heap w)) w))
        as (_ & Hv & done & Hc & Hp & Hok & Herr).
      split; [by rewrite Hv|].
      exists done. split; [exact Hc|]. split; [exact Hp|].
      split; [intros _; exact Hok|]. split.
      * intros Hnot. by destruct Hnot.
      * intros msg Hmsg. split; [exact Hin|]. exact (Herr msg Hmsg).
    + apply find_product_None in Hfind as Hnot.
      rewrite (updateQuantity_not_found _ _ _ Hnot). cbn.
      split; [done|]. exists []. unfold invoked_by.
      rewrite app_nil_r. split; [done|]. split; [apply prefix_nil|].
      split; [intros Hin; by destruct Hnot|]. split; [done|].
      intros msg Hmsg. discriminate Hmsg.
Qed.

Lemma mutate_returns m w :
  well_behaved body w → returns (mutate body m w).
Proof.
  intros Hwb. destruct m as [product|productId newQuantity]; cbn.
  - apply for_of_returns. exact Hwb.
  - unfold updateQuantity.
    destruct (find_product productId w); [|done].
    apply for_of_returns. exact Hwb.
Qed.

(** ** Notification *)

(** C1, as amended.  For every call to [addProduct] and every call to
    [updateQuantity] whose [productId] occurs in the catalog, the
    invocations made by the call, when it returns, are exactly the
    subscribers registered at the time of the call, each once and in
    registration order; the call does return when no registered subscriber
    throws.  A call to [updateQuantity] whose [productId] does not occur in
    the catalog returns at once, having invoked no subscriber and changed
    nothing. *)
Theorem mutation_notifies_each_subscriber_once m w :
  (takes_effect m w → returns (mutate body m w) →
     invoked_by w (mutate body m w).2 (observers (vm w)))
  ∧ (takes_effect m w → well_behaved body w → returns (mutate body m w))
  ∧ (¬ takes_effect m w →
       mutate body m w = (Ok tt, w) ∧ invoked_by w (mutate body m w).2 []).
Proof.
  destruct (mutate_spec m w) as (_ & done & Hc & _ & Hall & Hnone & _).
  split; [|split].
  - intros Heff Hret. by rewrite <- (Hall Heff Hret).
  - intros _. apply mutate_returns.
  - intros Hnot. rewrite (Hnone Hnot). split; [done|].
    unfold invoked_by. cbn. by rewrite app_nil_r.
Qed.

(** ** [updateQuantity] *)

(** C2.  [updateQuantity(id, q)] with an id that occurs in the catalog sets
    the quantity of that product (the object that the search finds) to [q],
    leaves its other fields, every other object and the catalog array as
    they were; this holds for the state the call leaves behind whether or
    not a subscriber throws afterwards.  With an id that does not occur, the
    call returns and the whole state is unchanged. *)
Theorem updateQuantity_frame productId newQuantity w :
  (in_catalog productId w →
     ∃ l p p',
       find_product productId w = Some l ∧ l ∈ products (vm w) ∧
       heap w !! l = Some p ∧ id p = productId ∧
       heap (updateQuantity body productId newQuantity w).2 !! l = Some p' ∧
       quantity p' = newQuantity ∧
       id p' = id p ∧ name p' = name p ∧ price p' = price p ∧
       (∀ l', l' ≠ l →
          heap (updateQuantity body productId newQuantity w).2 !! l'
          = heap w !! l') ∧
       vm (updateQuantity body productId newQuantity w).2 = vm w)
  ∧ (¬ in_catalog productId w →
       updateQuantity body productId newQuantity w = (Ok tt, w)).
Proof.
  split; [|apply updateQuantity_not_found].
  intros [l Hfind]%find_product_in_catalog.
  pose proof Hfind as (before & after & Hps & Hl & _)%find_product_Some.
  apply has_id_true in Hl as (p & Hp & Hid).
  exists l, p, (set_quantity newQuantity p).
  rewrite (updateQuantity_found _ _ _ _ Hfind).
  destruct (notifyObservers_spec
              (set_heap (alter (set_quantity newQuantity) l (heap w)) w))
    as (Hh & Hv & _).
  rewrite Hh, Hv. cbn.
  repeat split; try done.
  - rewrite Hps. apply elem_of_app. right. apply list_elem_of_here.
  - by rewrite lookup_alter_eq, Hp.
  - intros l' Hne. by rewrite lookup_alter_ne.
Qed.

(** C4.  For every [productId] that does not occur in the catalog the linear
    search finds nothing and [updateQuantity] returns normally with the
    state exactly as it was: no error is raised and none is returned.
    [updateQuantity] raises no error of its own for any input: an exception
    can leave it only when the id occurs and a notified subscriber threw
    it. *)
Theorem updateQuantity_unknown_id_is_silent productId newQuantity w :
  (¬ in_catalog productId w →
     find_product productId w = None ∧
     updateQuantity body productId newQuantity w = (Ok tt, w))
  ∧ (∀ msg, (updateQuantity body productId newQuantity w).1 = Err msg →
       in_catalog productId w ∧
       ∃ o ps e, o ∈ observers (vm w) ∧ (body o ps e).1 = Err msg).
Proof.
  split.
  - intros Hnot. split; [by apply find_product_None|].
    by apply updateQuantity_not_found.
  - intros msg Hmsg.
    destruct (mutate_spec (UpdateQuantity productId newQuantity) w)
      as (_ & done & _ & _ & _ & _ & Herr).
    exact (Herr msg Hmsg).
Qed.

(** C8.  When several products of the catalog have the id, only the first
    of them in insertion order is written: its quantity field becomes [q]
    while its id, name and price stay, and every later product with that id
    (every other object, in fact) is unchanged. *)
Theorem updateQuantity_first_match productId newQuantity w before l after p :
  products (vm w) = before ++ l :: after →
  (∀ l0 p0, l0 ∈ before → heap w !! l0 = Some p0 → id p0 ≠ productId) →
  heap w !! l = Some p →
  id p = productId →
  find_product productId w = Some l
  ∧ heap (updateQuantity body productId newQuantity w).2 !! l
    = Some (set_quantity newQuantity p)
  ∧ (∃ p',
       heap (updateQuantity body productId newQuantity w).2 !! l = Some p'
       ∧ quantity p' = newQuantity
       ∧ id p' = id p ∧ name p' = name p ∧ price p' = price p)
  ∧ ∀ l' p', l' ∈ after → l' ≠ l →
      heap w !! l' = Some p' → id p' = productId →
      heap (updateQuantity body productId newQuantity w).2 !! l' = Some p'.
Proof.
  intros Hps Hbefore Hp Hid.
  assert (find_product productId w = Some l) as Hfind.
  { apply find_product_Some. exists before, after.
    split; [done|]. split; [apply has_id_true; eauto|].
    intros l0 Hl0. destruct (has_id (heap w) productId l0) eqn:Hhas; [|done].
    apply has_id_true in Hhas as (p0 & Hp0 & Hid0).
    by destruct (Hbefore l0 p0 Hl0 Hp0). }
  split; [done|].
  rewrite (updateQuantity_found _ _ _ _ Hfind).
  destruct (notifyObservers_spec
              (set_heap (alter (set_quantity newQuantity) l (heap w)) w))
    as (Hh & _).
  rewrite Hh. cbn.
  assert (alter (set_quantity newQuantity) l (heap w) !! l
          = Some (set_quantity newQuantity p)) as Hl
    by (by rewrite lookup_alter_eq, Hp).
  split; [exact Hl|]. split.
  - exists (set_quantity newQuantity p). by rewrite Hl.
  - intros l' p' _ Hne Hp' _. by rewrite lookup_alter_ne.
Qed.

(** ** [addProduct] and [getProducts] *)

Lemma addProducts_no_observers ps w :
  observers (vm w) = [] →
  addProducts body ps w = (Ok tt, set_products (products (vm w) ++ ps) w).
Proof.
  revert w. induction ps as [|product rest IH]; intros w Hobs; cbn.
  - unfold ret, set_products. rewrite app_nil_r.
    by destruct w as [h [ps os] e cs].
  - unfold bind, addProduct, notifyObservers. cbn. rewrite Hobs. cbn.
    rewrite IH by done. unfold set_products. cbn.
    by rewrite <- app_assoc.
Qed.

(** What a call of any kind does to the two arrays. *)
Lemma call_arrays c w :
  products (vm (call body c w).2) = products (vm w) ++ pushed c ∧
  observers (vm (call body c w).2) =
    match c with
    | Mutate _ => observers (vm w)
    | AddObserver o => observers (vm w) ++ [o]
    | RemoveObserver o => filter (λ obs, obs ≠ o) (observers (vm w))
    end.
Proof.
  destruct c as [[product|productId newQuantity]|o|o];
    unfold call, mutate; cbn [pushed];
    [| |cbn; by rewrite app_nil_r|cbn; by rewrite app_nil_r].
  - rewrite addProduct_unfold.
    destruct (notifyObservers_spec
                (set_products (products (vm w) ++ [product]) w))
      as (_ & -> & _). done.
  - unfold updateQuantity. destruct (find_product productId w) as [l|].
    + destruct (notifyObservers_spec
                  (set_heap (alter (set_quantity newQuantity) l (heap w)) w))
        as (_ & -> & _). cbn. by rewrite app_nil_r.
    + cbn. by rewrite app_nil_r.
Qed.

Lemma script_cons c cs w :
  script body (c :: cs) w = script body cs (call body c w).2.
Proof. done. Qed.

Lemma script_getProducts cs w :
  getProducts (script body cs w) = getProducts w ++ added cs.
Proof.
  unfold getProducts, added.
  revert w. induction cs as [|c cs IH]; intros w.
  - cbn. by rewrite app_nil_r.
  - rewrite script_cons, IH. destruct (call_arrays c w) as [-> _].
    cbn. by rewrite <- app_assoc.
Qed.

(** C3.  A sequence of [addProduct] calls on a fresh view model: every call
    returns (nothing is validated or rejected, duplicates included), and
    [getProducts()] is then exactly the sequence of the added products, in
    the order of the calls, the objects being as they were.  More generally
    [getProducts()] after any calls on a fresh view model is the sequence of
    the products that the [addProduct] calls among them added. *)
Theorem getProducts_in_insertion_order h e :
  (∀ ps, ∃ w',
     addProducts body ps (new_world h e) = (Ok tt, w') ∧
     getProducts w' = ps ∧ heap w' = h)
  ∧ (∀ cs, getProducts (script body cs (new_world h e)) = added cs).
Proof.
  split.
  - intros ps. eexists. split; [by apply addProducts_no_observers|done].
  - intros cs. by rewrite script_getProducts.
Qed.

(** ** Subscribers *)

Lemma not_elem_of_filter_ne f (os : list ObsRef) :
  f ∉ filter (λ obs, obs ≠ f) os.
Proof. rewrite list_elem_of_filter. by intros [Hne _]. Qed.

(** A call invokes only subscribers that are registered when it is made. *)
Lemma call_invokes_registered c w :
  ∃ done, invoked_by w (call body c w).2 done ∧
          ∀ o, o ∈ done → o ∈ observers (vm w).
Proof.
  destruct c as [m|o|o]; cbn.
  - destruct (mutate_spec m w) as (_ & done & Hc & Hp & _).
    exists done. split; [done|].
    intros o Ho. by apply (elem_of_prefix done).
  - exists []. unfold invoked_by. cbn. rewrite app_nil_r.
    split; [done|]. by intros o' ?%elem_of_nil.
  - exists []. unfold invoked_by. cbn. rewrite app_nil_r.
    split; [done|]. by intros o' ?%elem_of_nil.
Qed.

(** As long as [f] is not registered again, a script of calls never invokes
    a callback [f] that is not registered at its start. *)
Lemma script_never_invokes f cs w :
  f ∉ observers (vm w) →
  AddObserver f ∉ cs →
  ∃ done, invoked_by w (script body cs w) done ∧ f ∉ done.
Proof.
  revert w. induction cs as [|c cs IH]; intros w Hf Hcs.
  - exists []. unfold invoked_by. cbn. rewrite app_nil_r.
    split; [done|]. apply not_elem_of_nil.
  - rewrite script_cons. apply not_elem_of_cons in Hcs as [Hc Hcs].
    destruct (call_invokes_registered c w) as (d1 & Hd1 & Hreg).
    destruct (IH (call body c w).2) as (d2 & Hd2 & Hf2); [|done|].
    + destruct (call_arrays c w) as [_ Hobs]. rewrite Hobs.
      destruct c as [m|o|o]; [done| |].
      * apply not_elem_of_app. split; [done|].
        rewrite list_elem_of_singleton. congruence.
      * rewrite list_elem_of_filter. by intros [_ ?].
    + exists (d1 ++ d2). unfold invoked_by in *.
      rewrite Hd2, Hd1, <- app_assoc. split; [done|].
      apply not_elem_of_app. split; [|done].
      intros Hin. by apply Hf, Hreg.
Qed.

(** C5.  After [removeObserver(f)], however many calls follow, short of
    registering [f] again, none of them invokes [f].  Every other callback
    that was registered is still registered and still notified: a mutation
    that takes effect returns when the remaining subscribers return, and
    when it returns it has invoked exactly the subscribers other than [f],
    each as often as it is registered and in registration order. *)
Theorem removeObserver_stops_notification f w cs :
  AddObserver f ∉ cs →
  (∃ done,
     invoked_by (removeObserver f w).2
       (script body cs (removeObserver f w).2) done
     ∧ f ∉ done)
  ∧ (∀ g, g ≠ f → g ∈ observers (vm w) →
       g ∈ observers (vm (removeObserver f w).2)
       ∧ ∀ m, takes_effect m (removeObserver f w).2 →
           (well_behaved body (removeObserver f w).2 →
              returns (mutate body m (removeObserver f w).2))
           ∧ (returns (mutate body m (removeObserver f w).2) →
                invoked_by (removeObserver f w).2
                  (mutate body m (removeObserver f w).2).2
                  (filter (λ obs, obs ≠ f) (observers (vm w)))
                ∧ g ∈ filter (λ obs, obs ≠ f) (observers (vm w))
                ∧ f ∉ filter (λ obs, obs ≠ f) (observers (vm w)))).
Proof.
  intros Hcs. split.
  - apply script_never_invokes; [|done]. cbn. apply not_elem_of_filter_ne.
  - intros g Hne Hg.
    assert (g ∈ filter (λ obs, obs ≠ f) (observers (vm w))) as Hg'
      by (by apply list_elem_of_filter).
    split; [exact Hg'|]. intros m Heff. split.
    + apply mutate_returns.
    + intros Hret.
      destruct (mutate_spec m (removeObserver f w).2)
        as (_ & done & Hc & _ & Hall & _).
      rewrite (Hall Heff Hret) in Hc.
      split; [exact Hc|]. split; [exact Hg'|].
      apply not_elem_of_filter_ne.
Qed.

(** C9.  One [removeObserver(f)] removes every occurrence of [f] from the
    subscriber list, however often [f] was registered; the other
    registrations stay, in their order and number, and the call returns
    without touching anything else. *)
Theorem removeObserver_removes_every_occurrence f w :
  (removeObserver f w).1 = Ok tt
  ∧ (f ∉ observers (vm (removeObserver f w).2))
  ∧ observers (vm (removeObserver f w).2) `sublist_of` observers (vm w)
  ∧ (∀ g, g ≠ f →
       filter (λ o, o = g) (observers (vm (removeObserver f w).2))
       = filter (λ o, o = g) (observers (vm w)))
  ∧ products (vm (removeObserver f w).2) = products (vm w)
  ∧ heap (removeObserver f w).2 = heap w
  ∧ calls (removeObserver f w).2 = calls w.
Proof.
  cbn. split; [done|]. split; [apply not_elem_of_filter_ne|].
  split; [apply sublist_filter|]. split; [|done].
  intros g Hne. rewrite list_filter_filter.
  apply list_filter_iff. intros o. split; [by intros [? _]|].
  intros ->. done.
Qed.

End ViewModelFacts.

(** ** The view model on concrete worlds *)

(** The scenario of the demo script: the two products in insertion order, then
    [updateQuantity(1, 80)] changes the first only and the render subscriber
    runs once more. *)
Example demo_scenario :
  view Demo.loaded = [Demo.apple; Demo.banana]
  ∧ calls Demo.loaded = [Demo.render; Demo.render]
  ∧ view Demo.after_timer = [set_quantity 80 Demo.apple; Demo.banana]
  ∧ calls Demo.after_timer = [Demo.render; Demo.render; Demo.render]
  ∧ env Demo.after_timer
    = Some [li_of (set_quantity 80 Demo.apple); li_of Demo.banana].
Proof. repeat split; vm_compute; reflexivity. Qed.

(** One object pushed twice is one product: the write through the first slot
    is seen through the second slot as well. *)
Example same_object_in_two_slots :
  view Demo.pushed_twice = [Demo.twin_a; Demo.twin_a]
  ∧ view (updateQuantity Demo.counting_body 5 99 Demo.pushed_twice).2
    = [set_quantity 99 Demo.twin_a; set_quantity 99 Demo.twin_a].
Proof. split; vm_compute; reflexivity. Qed.

(** A subscriber that throws ends the notification: the subscribers after it
    are not invoked, and the exception leaves the mutating call. *)
Example failing_subscriber_aborts_notification :
  mutate Demo.counting_body (AddProduct 1%positive)
    (set_observers [Demo.failing; 3%nat] Demo.twins)
  = (Err "subscriber failed",
     {| heap := heap Demo.twins;
        vm := {| products := [1%positive; 2%positive; 1%positive];
                 observers := [Demo.failing; 3%nat] |};
        env := 0%nat;
        calls := [Demo.failing] |}).
Proof. vm_compute. reflexivity. Qed.

Lemma demo_not_in_catalog_3 : ¬ in_catalog 3 Demo.loaded.
Proof. apply find_product_None. vm_compute. reflexivity. Defined.

Lemma demo_in_catalog_1 : in_catalog 1 Demo.loaded.
Proof.
  exists 1%positive, Demo.apple. split; [|split].
  - vm_compute. apply list_elem_of_here.
  - vm_compute. reflexivity.
  - reflexivity.
Defined.

Lemma demo_well_behaved : well_behaved Demo.body Demo.loaded.
Proof. intros o _ ps [d|]; reflexivity. Defined.

(** C1 as stated fails: with the render subscriber registered,
    [updateQuantity(3, 80)] on the demo catalog (ids 1 and 2) returns without
    having invoked it. *)
Lemma updateQuantity_unknown_id_notifies_nobody :
  observers (vm Demo.loaded) = [Demo.render]
  ∧ returns (updateQuantity Demo.body 3 80 Demo.loaded)
  ∧ calls (updateQuantity Demo.body 3 80 Demo.loaded).2 = calls Demo.loaded
  ∧ ¬ invoked_by Demo.loaded (updateQuantity Demo.body 3 80 Demo.loaded).2
        (observers (vm Demo.loaded)).
Proof.
  split; [reflexivity|]. split; [reflexivity|]. split; [reflexivity|].
  unfold invoked_by. intros H. vm_compute in H. discriminate H.
Qed.

Lemma mutation_notifies_each_subscriber_once_witness :
  returns (mutate Demo.body (UpdateQuantity 1 80) Demo.loaded)
  ∧ invoked_by Demo.loaded
      (mutate Demo.body (UpdateQuantity 1 80) Demo.loaded).2 [Demo.render]
  ∧ invoked_by Demo.loaded
      (mutate Demo.body (UpdateQuantity 3 80) Demo.loaded).2 [].
Proof.
  destruct (mutation_notifies_each_subscriber_once Demo.body
              (UpdateQuantity 1 80) Demo.loaded) as (Hall & Hret & _).
  destruct (mutation_notifies_each_subscriber_once Demo.body
              (UpdateQuantity 3 80) Demo.loaded) as (_ & _ & Hnone).
  split; [|split].
  - exact (Hret demo_in_catalog_1 demo_well_behaved).
  - exact (Hall demo_in_catalog_1 (Hret demo_in_catalog_1 demo_well_behaved)).
  - exact (proj2 (Hnone demo_not_in_catalog_3)).
Defined.

Lemma updateQuantity_frame_witness :
  (∃ l p',
     heap (updateQuantity Demo.body 1 80 Demo.loaded).2 !! l = Some p'
     ∧ quantity p' = 80 ∧ id p' = 1)
  ∧ updateQuantity Demo.body 3 80 Demo.loaded = (Ok tt, Demo.loaded).
Proof.
  destruct (updateQuantity_frame Demo.body 1 80 Demo.loaded) as [Hfound _].
  destruct (updateQuantity_frame Demo.body 3 80 Demo.loaded) as [_ Hnot].
  split.
  - destruct (Hfound demo_in_catalog_1)
      as (l & p & p' & _ & _ & _ & Hid & Hp' & Hq & Hid' & _).
    exists l, p'. split; [exact Hp'|]. split; [exact Hq|].
    by rewrite Hid', Hid.
  - exact (Hnot demo_not_in_catalog_3).
Defined.

Lemma twins_not_in_catalog_9 : ¬ in_catalog 9 Demo.twins.
Proof. apply find_product_None. vm_compute. reflexivity. Defined.

Lemma updateQuantity_unknown_id_is_silent_witness :
  updateQuantity Demo.counting_body 9 1 Demo.twins = (Ok tt, Demo.twins)
  ∧ in_catalog 5 Demo.twins.
Proof.
  destruct (updateQuantity_unknown_id_is_silent Demo.counting_body 9 1
              Demo.twins) as [Hnot _].
  destruct (updateQuantity_unknown_id_is_silent Demo.counting_body 5 99
              Demo.twins) as [_ Herr].
  split.
  - exact (proj2 (Hnot twins_not_in_catalog_9)).
  - apply (Herr "subscriber failed"). vm_compute. reflexivity.
Defined.

Lemma updateQuantity_first_match_witness :
  (∃ p',
     heap (updateQuantity Demo.counting_body 5 99 Demo.twins).2 !! 1%positive
     = Some p'
     ∧ quantity p' = 99 ∧ id p' = 5 ∧ name p' = "Twin A")
  ∧ heap (updateQuantity Demo.counting_body 5 99 Demo.twins).2 !! 2%positive
    = Some Demo.twin_b.
Proof.
  destruct (updateQuantity_first_match Demo.counting_body 5 99 Demo.twins
              [] 1%positive [2%positive] Demo.twin_a)
    as (_ & _ & (p' & Hp' & Hq & Hid & Hname & _) & Hlater).
  - reflexivity.
  - intros l0 p0 Hl0. by apply elem_of_nil in Hl0.
  - vm_compute. reflexivity.
  - reflexivity.
  - split.
    + exists p'. split; [exact Hp'|]. split; [exact Hq|].
      split; [exact Hid | exact Hname].
    + apply Hlater.
      * apply list_elem_of_here.
      * discriminate.
      * vm_compute. reflexivity.
      * reflexivity.
Defined.

Lemma removeObserver_stops_notification_witness :
  (∃ done,
     invoked_by (removeObserver 3%nat Demo.registered_twice).2
       (script Demo.counting_body
          [Mutate (AddProduct 1%positive); AddObserver 4%nat;
           Mutate (UpdateQuantity 5 7)]
          (removeObserver 3%nat Demo.registered_twice).2) done
     ∧ 3%nat ∉ done)
  ∧ returns
      (mutate Demo.counting_body (UpdateQuantity 5 7)
         (removeObserver 3%nat Demo.registered_twice).2)
  ∧ invoked_by (removeObserver 3%nat Demo.registered_twice).2
      (mutate Demo.counting_body (UpdateQuantity 5 7)
         (removeObserver 3%nat Demo.registered_twice).2).2
      [4%nat].
Proof.
  destruct (removeObserver_stops_notification Demo.counting_body 3%nat
              Demo.registered_twice
              [Mutate (AddProduct 1%positive); AddObserver 4%nat;
               Mutate (UpdateQuantity 5 7)])
    as [Hnever Hothers].
  - intros H.
    apply elem_of_cons in H as [H|H]; [discriminate H|].
    apply elem_of_cons in H as [H|H]; [discriminate H|].
    apply elem_of_cons in H as [H|H]; [discriminate H|].
    by apply elem_of_nil in H.
  - split; [exact Hnever|].
    destruct (Hothers 4%nat) as [_ Hnotified].
    + discriminate.
    + apply list_elem_of_further, list_elem_of_here.
    + destruct (Hnotified (UpdateQuantity 5 7)) as [Hret Hinv].
      * exists 1%positive, Demo.twin_a. split; [|split].
        -- apply list_elem_of_here.
        -- vm_compute. reflexivity.
        -- reflexivity.
      * assert (returns
                  (mutate Demo.counting_body (UpdateQuantity 5 7)
                     (removeObserver 3%nat Demo.registered_twice).2))
          as Hreturns.
        { apply Hret. intros o Ho ps e. vm_compute in Ho.
          apply list_elem_of_singleton in Ho. subst o. reflexivity. }
        split; [exact Hreturns|].
        exact (proj1 (Hinv Hreturns)).
Defined.

(** What the calls of the previous lemma invoke, written out: the callback
    that stayed registered, once per registration at each mutation. *)
Example removeObserver_then_calls :
  observers (vm (removeObserver 3%nat Demo.registered_twice).2) = [4%nat]
  ∧ calls (script Demo.counting_body
             [Mutate (AddProduct 1%positive); AddObserver 4%nat;
              Mutate (UpdateQuantity 5 7)]
             (removeObserver 3%nat Demo.registered_twice).2)
    = [4%nat; 4%nat; 4%nat].
Proof. split; vm_compute; reflexivity. Qed.

Lemma removeObserver_removes_every_occurrence_witness :
  (3%nat ∉ observers (vm (removeObserver 3%nat Demo.registered_twice).2))
  ∧ filter (λ o, o = 4%nat)
      (observers (vm (removeObserver 3%nat Demo.registered_twice).2))
    = [4%nat].
Proof.
  destruct (removeObserver_removes_every_occurrence 3%nat
              Demo.registered_twice) as (_ & Hgone & _ & Hothers & _).
  split; [exact Hgone|].
  rewrite (Hothers 4%nat); [reflexivity | discriminate].
Defined.

(** * Properties of the component examples *)

Section ButtonFacts.

Context {T : Type}.
Variable String_of : T → string.

Import Button.

Lemma isValidVariant_true (v : option string) :
  isValidVariant v = true ↔
  v = Some "primary" ∨ v = Some "secondary" ∨ v = Some "tertiary".
Proof.
  unfold isValidVariant. rewrite bool_decide_eq_true.
  rewrite !elem_of_cons, elem_of_nil.
  destruct v as [s|]; cbn.
  - destruct (decide (s = EmptyString)) as [->|Hs].
    + split.
      * intros [H|[H|[H|[]]]]; discriminate H.
      * intros [H|[H|H]]; discriminate H.
    + split.
      * intros [->|[->|[->|[]]]]; auto.
      * intros [[= ->]|[[= ->]|[= ->]]]; auto.
  - split.
    + intros [H|[H|[H|[]]]]; discriminate H.
    + intros [H|[H|H]]; discriminate H.
Qed.

(** C6.  [Button] throws the error [Invalid variant] when the variant is
    none of ["primary"], ["secondary"], ["tertiary"], and returns its
    element, without throwing, when the variant is one of the three; the
    check comes before anything is rendered. *)
Theorem Button_validates_variant (props : ButtonProps) :
  (variant props = Some "primary" ∨ variant props = Some "secondary"
   ∨ variant props = Some "tertiary" →
     ∃ element, Button String_of props = Ok element)
  ∧ (¬ (variant props = Some "primary" ∨ variant props = Some "secondary"
        ∨ variant props = Some "tertiary") →
     Button String_of props = Err "Invalid variant").
Proof.
  unfold Button. split.
  - intros Hv%isValidVariant_true. rewrite Hv. cbn. eauto.
  - intros Hv. destruct (isValidVariant (variant props)) eqn:Hb; [|done].
    by apply isValidVariant_true in Hb.
Qed.

(** C10.  [Button] throws whenever the [variant] prop is omitted, whatever
    the other props are: [undefined] does not pass the guard, although the
    props type makes [variant] optional. *)
Theorem Button_requires_variant (value : T) (onClick : option nat)
    (disabled : option bool) :
  isValidVariant None = false
  ∧ Button String_of
      {| value := value; onClick := onClick; disabled := disabled;
         variant := None |}
    = Err "Invalid variant".
Proof. split; reflexivity. Qed.

End ButtonFacts.

Lemma Button_validates_variant_witness :
  (∃ element,
     Button.Button (λ s : string, s)
       (Button.mkProps "Save" None (Some true) (Some "secondary")) = Ok element)
  ∧ Button.Button (λ s : string, s)
      (Button.mkProps "Save" None None (Some "danger")) = Err "Invalid variant".
Proof.
  split.
  - apply (Button_validates_variant (λ s : string, s)
             (Button.mkProps "Save" None (Some true) (Some "secondary"))).
    right. left. reflexivity.
  - apply (Button_validates_variant (λ s : string, s)
             (Button.mkProps "Save" None None (Some "danger"))).
    intros [H|[H|H]]; discriminate H.
Defined.

Section InputFieldFacts.

Import InputField.

Lemma last_char_app (s t : string) (c : ascii) :
  last_char t = Some c → last_char (s +:+ t) = Some c.
Proof.
  intros Ht. induction s as [|a s IH]; [done|].
  change (last_char (String a (s +:+ t)) = Some c).
  destruct (s +:+ t); [discriminate IH | exact IH].
Qed.

Lemma getErrorMessage_minLength (v : string) :
  getErrorMessage v "minLength"
  = "The value " +:+ dquote +:+ v +:+ dquote +:+ " is too short".
Proof. unfold getErrorMessage. by case_decide. Qed.

Lemma getErrorMessage_maxLength (v : string) :
  getErrorMessage v "maxLength"
  = "The value " +:+ dquote +:+ v +:+ dquote +:+ " is too long".
Proof.
  unfold getErrorMessage. case_decide; [discriminate|]. by case_decide.
Qed.

Lemma too_short_ends_in_t (v : string) :
  last_char (getErrorMessage v "minLength") = Some "t"%char.
Proof.
  rewrite getErrorMessage_minLength. do 3 apply last_char_app. reflexivity.
Qed.

Lemma too_long_ends_in_g (v : string) :
  last_char (getErrorMessage v "maxLength") = Some "g"%char.
Proof.
  rewrite getErrorMessage_maxLength. do 3 apply last_char_app. reflexivity.
Qed.

(** The message that [handleChange] stores is the too-short message of its
    input or the empty message, by the one test on the length. *)
Lemma handleChange_errorMessage (b : bool) (v : string) (st : State) :
  ((String.length v < 5)%nat ∧
     errorMessage (handleChange b v st) = getErrorMessage v "minLength")
  ∨ ((5 ≤ String.length v)%nat ∧
       errorMessage (handleChange b v st) = EmptyString).
Proof.
  unfold handleChange. cbn. case_decide; [left | right]; split; (lia || done).
Qed.

Lemma handleChange_not_too_long (b : bool) (v v' : string) (st : State) :
  errorMessage (handleChange b v st) ≠ getErrorMessage v' "maxLength".
Proof.
  intros Heq. apply (f_equal last_char) in Heq.
  rewrite too_long_ends_in_g in Heq.
  destruct (handleChange_errorMessage b v st) as [[_ Hm]|[_ Hm]];
    rewrite Hm in Heq.
  - rewrite too_short_ends_in_t in Heq. discriminate Heq.
  - discriminate Heq.
Qed.

(** C7 as stated fails: no input makes the change handler produce the
    too-long message, neither that of the input nor that of any other
    value; a long input gets the empty message. *)
Lemma handleChange_never_reports_too_long :
  (¬ ∃ b v st,
       errorMessage (handleChange b v st) = getErrorMessage v "maxLength")
  ∧ errorMessage
      (handleChange false "a value well beyond any sensible maximum length"
         {| value := EmptyString; errorMessage := EmptyString;
            reported := [] |})
    = EmptyString.
Proof.
  split; [|reflexivity].
  intros (b & v & st & Heq). by apply handleChange_not_too_long in Heq.
Qed.

(** C7, as amended.  The change handler computes a validation message for
    the too-short kind only and stores it, together with the input, for
    inline display; nothing is thrown.  For every input shorter than 5
    characters the message is the too-short ([minLength]) message of that
    input; for every other input, however long, it is the empty message.
    The too-long ([maxLength]) message that [getErrorMessage] can build is
    never the stored one. *)
Theorem handleChange_reports_too_short_only (b : bool) (v : string)
    (st : State) :
  value (handleChange b v st) = v
  ∧ ((String.length v < 5)%nat →
       errorMessage (handleChange b v st)
       = "The value " +:+ dquote +:+ v +:+ dquote +:+ " is too short")
  ∧ ((5 ≤ String.length v)%nat →
       errorMessage (handleChange b v st) = EmptyString)
  ∧ (∀ v', errorMessage (handleChange b v st)
           ≠ getErrorMessage v' "maxLength").
Proof.
  split; [done|].
  destruct (handleChange_errorMessage b v st) as [[Hlen Hm]|[Hlen Hm]].
  - split; [|split].
    + intros _. by rewrite Hm, getErrorMessage_minLength.
    + lia.
    + intros v'. apply handleChange_not_too_long.
  - split; [|split].
    + lia.
    + done.
    + intros v'. apply handleChange_not_too_long.
Qed.

End InputFieldFacts.

Lemma handleChange_reports_too_short_only_witness :
  InputField.errorMessage
    (InputField.handleChange true "abc"
       (InputField.mkState EmptyString EmptyString []))
  = "The value " +:+ InputField.dquote +:+ "abc" +:+ InputField.dquote
    +:+ " is too short"
  ∧ InputField.errorMessage
      (InputField.handleChange true "abcdefgh"
         (InputField.mkState EmptyString EmptyString []))
    = EmptyString.
Proof.
  split.
  - apply (handleChange_reports_too_short_only true "abc"
             (InputField.mkState EmptyString EmptyString [])).
    cbn. lia.
  - apply (handleChange_reports_too_short_only true "abcdefgh"
             (InputField.mkState EmptyString EmptyString [])).
    cbn. lia.
Defined.

(** * Further properties of the view model *)

Section ViewModelMore.

Context {Env : Type}.
Variable body : ObsRef → list Product → Env → Result unit * Env.

Implicit Types (w : World Env) (o f g : ObsRef) (l : Loc) (p : Product).

(** ** What the two mutations leave behind, whether or not they return *)

Lemma addProduct_state product w :
  heap (addProduct body product w).2 = heap w
  ∧ products (vm (addProduct body product w).2) = products (vm w) ++ [product]
  ∧ observers (vm (addProduct body product w).2) = observers (vm w).
Proof.
  rewrite addProduct_unfold.
  destruct (notifyObservers_spec body
              (set_products (products (vm w) ++ [product]) w))
    as (-> & -> & _).
  done.
Qed.

Lemma updateQuantity_state productId newQuantity w :
  heap (updateQuantity body productId newQuantity w).2
  = match find_product productId w with
    | Some l => alter (set_quantity newQuantity) l (heap w)
    | None => heap w
    end
  ∧ vm (updateQuantity body productId newQuantity w).2 = vm w.
Proof.
  unfold updateQuantity. destruct (find_product productId w) as [l|]; [|done].
  destruct (notifyObservers_spec body
              (set_heap (alter (set_quantity newQuantity) l (heap w)) w))
    as (-> & -> & _).
  done.
Qed.

(** ** A subscriber that throws *)



(** ** Registering and removing subscribers *)

(** X2.  [addObserver(f)] only appends [f] to the subscriber list: it returns,
    invokes nobody (the new subscriber included), and leaves the catalog and
    the objects alone.  From then on a mutation that takes effect and returns
    has invoked the earlier subscribers in their order and then [f], also
    when [f] was registered before. *)
Theorem addObserver_appends f w :
  (addObserver f w).1 = Ok tt
  ∧ calls (addObserver f w).2 = calls w
  ∧ env (addObserver f w).2 = env w
  ∧ heap (addObserver f w).2 = heap w
  ∧ products (vm (addObserver f w).2) = products (vm w)
  ∧ ∀ m, takes_effect m (addObserver f w).2 →
      returns (mutate body m (addObserver f w).2) →
      invoked_by (addObserver f w).2 (mutate body m (addObserver f w).2).2
        (observers (vm w) ++ [f]).
Proof.
  repeat (split; [done|]).
  intros m Heff Hret.
  destruct (mutate_spec body m (addObserver f w).2)
    as (_ & done & Hc & _ & Hall & _).
  by rewrite (Hall Heff Hret) in Hc.
Qed.

Lemma filter_ne_id f (os : list ObsRef) :
  f ∉ os → filter (λ obs, obs ≠ f) os = os.
Proof.
  induction os as [|o os IH]; [done|].
  intros [Hne Hos]%not_elem_of_cons.
  rewrite filter_cons_True by congruence. by rewrite IH.
Qed.

Lemma set_observers_same w : set_observers (observers (vm w)) w = w.
Proof. by destruct w as [h [ps os] e cs]. Qed.

(** X3.  [removeObserver(f)] of a callback that is not registered changes
    nothing, and removing a callback a second time changes nothing more. *)
Theorem removeObserver_unregistered f w :
  (f ∉ observers (vm w) → removeObserver f w = (Ok tt, w))
  ∧ removeObserver f (removeObserver f w).2 = removeObserver f w.
Proof.
  assert (∀ w0 : World Env,
            f ∉ observers (vm w0) → removeObserver f w0 = (Ok tt, w0))
    as Hnoop.
  { intros w0 Hf. unfold removeObserver.
    by rewrite (filter_ne_id _ _ Hf), set_observers_same. }
  split; [apply Hnoop|].
  rewrite Hnoop; [done|]. cbn. apply not_elem_of_filter_ne.
Qed.

(** X4.  Registering a callback that was not registered and removing it again
    gives back the state before the two calls. *)
Theorem addObserver_removeObserver_round_trip f w :
  f ∉ observers (vm w) →
  (removeObserver f (addObserver f w).2).2 = w.
Proof.
  intros Hf. unfold removeObserver, addObserver. cbn.
  unfold set_observers. cbn.
  rewrite list.filter_app, (filter_ne_id _ _ Hf), filter_cons_False by auto.
  rewrite filter_nil, app_nil_r.
  by destruct w as [h [ps os] e cs].
Qed.

End ViewModelMore.

(** ** How calls of [updateQuantity] and [addProduct] compose *)

Section ViewModelCompose.

Context {Env : Type}.
Variable body : ObsRef → list Product → Env → Result unit * Env.

Implicit Types (w : World Env) (o f g : ObsRef) (l : Loc) (p : Product).

Lemma find_ext {A} (P Q : A → bool) (xs : list A) :
  (∀ x, P x = Q x) → List.find P xs = List.find Q xs.
Proof.
  intros HPQ. induction xs as [|x xs IH]; [done|].
  cbn. by rewrite HPQ, IH.
Qed.

(** Writing a quantity does not change the id of any object. *)
Lemma has_id_alter (h : gmap Loc Product) newQuantity l productId l' :
  has_id (alter (set_quantity newQuantity) l h) productId l'
  = has_id h productId l'.
Proof.
  unfold has_id. rewrite lookup_alter. case_decide as Hl; [|done].
  subst l'. by destruct (h !! l).
Qed.

Lemma updateQuantity_find productId newQuantity productId' w :
  find_product productId' (updateQuantity body productId newQuantity w).2
  = find_product productId' w.
Proof.
  unfold find_product.
  destruct (updateQuantity_state body productId newQuantity w) as [-> ->].
  destruct (find_product productId w) as [l|]; [|done].
  apply find_ext. intros l'. apply has_id_alter.
Qed.

(** X5.  [updateQuantity] never changes which object an id is resolved to, for
    any id: the search gives the same result after the call as before, and
    the same ids occur in the catalog. *)
Theorem updateQuantity_keeps_ids productId newQuantity productId' w :
  find_product productId' (updateQuantity body productId newQuantity w).2
  = find_product productId' w
  ∧ (in_catalog productId' (updateQuantity body productId newQuantity w).2
     ↔ in_catalog productId' w).
Proof.
  split; [apply updateQuantity_find|].
  by rewrite !find_product_in_catalog, updateQuantity_find.
Qed.

Lemma alter_set_quantity_twice (h : gmap Loc Product) q1 q2 l :
  alter (set_quantity q2) l (alter (set_quantity q1) l h)
  = alter (set_quantity q2) l h.
Proof.
  apply map_eq. intros l'. destruct (decide (l = l')) as [<-|Hne].
  - rewrite !lookup_alter_eq. by destruct (h !! l).
  - by rewrite !lookup_alter_ne.
Qed.

(** X6.  Two updates of the same id in a row: the last quantity wins, and the
    objects end up as if only the second update had been made. *)
Theorem updateQuantity_last_write_wins productId q1 q2 w :
  heap (updateQuantity body productId q2
          (updateQuantity body productId q1 w).2).2
  = heap (updateQuantity body productId q2 w).2
  ∧ vm (updateQuantity body productId q2
          (updateQuantity body productId q1 w).2).2 = vm w.
Proof.
  destruct (updateQuantity_state body productId q2
              (updateQuantity body productId q1 w).2) as [-> ->].
  rewrite (updateQuantity_find productId q1 productId w).
  destruct (updateQuantity_state body productId q1 w) as [-> ->].
  destruct (updateQuantity_state body productId q2 w) as [-> _].
  split; [|done].
  destruct (find_product productId w) as [l|]; [|done].
  apply alter_set_quantity_twice.
Qed.

(** X7.  Updates of two different ids can be made in either order: the objects
    end up the same. *)
Theorem updateQuantity_commutes a qa b qb w :
  a ≠ b →
  heap (updateQuantity body a qa (updateQuantity body b qb w).2).2
  = heap (updateQuantity body b qb (updateQuantity body a qa w).2).2.
Proof.
  intros Hab.
  destruct (updateQuantity_state body a qa (updateQuantity body b qb w).2)
    as [-> _].
  destruct (updateQuantity_state body b qb (updateQuantity body a qa w).2)
    as [-> _].
  rewrite (updateQuantity_find b qb a w), (updateQuantity_find a qa b w).
  destruct (updateQuantity_state body a qa w) as [-> _].
  destruct (updateQuantity_state body b qb w) as [-> _].
  destruct (find_product a w) as [la|] eqn:Ha;
    destruct (find_product b w) as [lb|] eqn:Hb; try done.
  assert (la ≠ lb) as Hne.
  { intros ->.
    apply find_product_Some in Ha as (_ & _ & _ & Ha & _).
    apply find_product_Some in Hb as (_ & _ & _ & Hb & _).
    apply has_id_true in Ha as (p & Hp & Hpa).
    apply has_id_true in Hb as (p' & Hp' & Hpb).
    congruence. }
  apply map_eq. intros l'. rewrite !lookup_alter.
  repeat case_decide; congruence.
Qed.

(** X8.  [updateQuantity] does not compare the new quantity with the old one: an
    update to the quantity the product already has changes no object and
    still notifies every subscriber. *)
Theorem updateQuantity_same_quantity_still_notifies productId w l p :
  find_product productId w = Some l →
  heap w !! l = Some p →
  heap (updateQuantity body productId (quantity p) w).2 = heap w
  ∧ (returns (updateQuantity body productId (quantity p) w) →
       invoked_by w (updateQuantity body productId (quantity p) w).2
         (observers (vm w)))
  ∧ (well_behaved body w →
       returns (updateQuantity body productId (quantity p) w)).
Proof.
  intros Hfind Hp.
  destruct (updateQuantity_state body productId (quantity p) w) as [Hh _].
  rewrite Hfind in Hh.
  destruct (mutate_spec body (UpdateQuantity productId (quantity p)) w)
    as (_ & done & Hc & _ & Hall & _).
  assert (in_catalog productId w) as Hin
    by (apply find_product_in_catalog; eauto).
  split; [|split].
  - rewrite Hh. apply alter_id. intros p0 Hp0.
    assert (p0 = p) as -> by congruence. by destruct p.
  - intros Hret. by rewrite <- (Hall Hin Hret).
  - apply (mutate_returns body (UpdateQuantity productId (quantity p))).
Qed.

(** X9.  A product that has been added can be updated through its id: after
    [addProduct(p)] with an id that did not occur before, the search for
    [p.id] finds [p] itself, and [updateQuantity(p.id, q)] makes [q] the
    quantity of [p], keeps its id, name and price, and writes to no other
    object. *)
Theorem addProduct_then_updateQuantity l p newQuantity w :
  heap w !! l = Some p →
  ¬ in_catalog (id p) w →
  find_product (id p) (addProduct body l w).2 = Some l
  ∧ heap (updateQuantity body (id p) newQuantity (addProduct body l w).2).2 !! l
    = Some (set_quantity newQuantity p)
  ∧ (∃ p',
       heap (updateQuantity body (id p) newQuantity
               (addProduct body l w).2).2 !! l = Some p'
       ∧ quantity p' = newQuantity
       ∧ id p' = id p ∧ name p' = name p ∧ price p' = price p)
  ∧ ∀ l', l' ≠ l →
      heap (updateQuantity body (id p) newQuantity (addProduct body l w).2).2
        !! l'
      = heap w !! l'.
Proof.
  intros Hp Hnot.
  destruct (addProduct_state body l w) as (Hh & Hps & _).
  assert (find_product (id p) (addProduct body l w).2 = Some l) as Hfind.
  { apply find_product_Some. exists (products (vm w)), [].
    rewrite Hh. split; [done|]. split; [apply has_id_true; eauto|].
    intros l' Hl'.
    destruct (has_id (heap w) (id p) l') eqn:Hhas; [|done].
    apply has_id_true in Hhas as (p' & Hp' & Hid').
    destruct Hnot. by exists l', p'. }
  split; [exact Hfind|].
  destruct (updateQuantity_state body (id p) newQuantity
              (addProduct body l w).2) as [-> _].
  rewrite Hfind, Hh.
  assert (alter (set_quantity newQuantity) l (heap w) !! l
          = Some (set_quantity newQuantity p)) as Hl
    by (by rewrite lookup_alter_eq, Hp).
  split; [exact Hl|]. split.
  - exists (set_quantity newQuantity p). by rewrite Hl.
  - intros l' Hne. by rewrite lookup_alter_ne.
Qed.

End ViewModelCompose.

(** ** The render subscriber *)

Lemma view_ext {Env : Type} (w w' : World Env) :
  heap w = heap w' → vm w = vm w' → view w = view w'.
Proof. intros Hh Hv. unfold view, getProducts. by rewrite Hh, Hv. Qed.

(** A notification round of render subscribers never throws; when there is
    at least one and the page has the list element, the element then shows
    the products as they are now. *)
Lemma for_of_render obs (w : World DOM) :
  (for_of Demo.body obs w).1 = Ok tt
  ∧ env (for_of Demo.body obs w).2
    = match obs, env w with
      | [], d => d
      | _ :: _, Some _ => Some (li_of <$> view w)
      | _ :: _, None => None
      end.
Proof.
  revert w. induction obs as [|o rest IH]; intros w; [done|].
  cbn. unfold bind, invoke, Demo.body, renderProductList.
  destruct (env w) as [d|] eqn:Hd; cbn.
  - destruct (IH {| heap := heap w; vm := vm w;
                   env := Some (li_of <$> view w);
                   calls := calls w ++ [o] |}) as [Hr He].
    split; [exact Hr|]. etrans; [exact He|]. by destruct rest.
  - destruct (IH {| heap := heap w; vm := vm w; env := None;
                   calls := calls w ++ [o] |}) as [Hr He].
    split; [exact Hr|]. etrans; [exact He|]. by destruct rest.
Qed.

(** X10.  With render subscribers registered, every mutation that takes effect
    returns and leaves the list element, when the page has one, showing
    exactly the products of the catalog after the mutation, in catalog order;
    on a page without the element nothing is rendered and nothing fails. *)
Theorem render_shows_current_catalog m (w : World DOM) :
  observers (vm w) ≠ [] →
  takes_effect m w →
  returns (mutate Demo.body m w)
  ∧ (∀ d, env w = Some d →
       env (mutate Demo.body m w).2
       = Some (li_of <$> view (mutate Demo.body m w).2))
  ∧ (env w = None → env (mutate Demo.body m w).2 = None).
Proof.
  intros Hobs Heff.
  assert (∀ w1 : World DOM,
            observers (vm w1) = observers (vm w) → env w1 = env w →
            returns (notifyObservers Demo.body w1)
            ∧ (∀ d, env w = Some d →
                 env (notifyObservers Demo.body w1).2
                 = Some (li_of <$> view (notifyObservers Demo.body w1).2))
            ∧ (env w = None → env (notifyObservers Demo.body w1).2 = None))
    as Hnotify.
  { intros w1 Ho He.
    destruct (notifyObservers_spec Demo.body w1) as (Hh & Hv & _).
    rewrite (view_ext _ _ Hh Hv).
    unfold returns, notifyObservers in *.
    destruct (for_of_render (observers (vm w1)) w1) as [Hr Henv].
    split; [exact Hr|].
    rewrite Henv, Ho, He.
    destruct (observers (vm w)) as [|o os]; [done|].
    split.
    - by intros d ->.
    - by intros ->. }
  destruct m as [product|productId newQuantity]; unfold mutate.
  - rewrite addProduct_unfold. by apply Hnotify.
  - apply find_product_in_catalog in Heff as [l Hfind].
    rewrite (updateQuantity_found _ _ _ _ _ Hfind). by apply Hnotify.
Qed.

(** ** Witnesses *)


Lemma addObserver_appends_witness :
  invoked_by (addObserver 3%nat Demo.registered_twice).2
    (mutate Demo.counting_body (AddProduct 1%positive)
       (addObserver 3%nat Demo.registered_twice).2).2
    [3%nat; 4%nat; 3%nat; 3%nat].
Proof.
  destruct (addObserver_appends Demo.counting_body 3%nat
              Demo.registered_twice) as (_ & _ & _ & _ & _ & Hnext).
  apply (Hnext (AddProduct 1%positive)).
  - exact I.
  - vm_compute. reflexivity.
Defined.

Lemma removeObserver_unregistered_witness :
  removeObserver 9%nat Demo.registered_twice = (Ok tt, Demo.registered_twice).
Proof.
  apply (proj1 (removeObserver_unregistered 9%nat Demo.registered_twice)).
  intros H.
  apply elem_of_cons in H as [H|H]; [discriminate H|].
  apply elem_of_cons in H as [H|H]; [discriminate H|].
  apply elem_of_cons in H as [H|H]; [discriminate H|].
  by apply elem_of_nil in H.
Defined.

Lemma addObserver_removeObserver_round_trip_witness :
  (removeObserver 9%nat (addObserver 9%nat Demo.registered_twice).2).2
  = Demo.registered_twice.
Proof.
  apply (addObserver_removeObserver_round_trip 9%nat Demo.registered_twice).
  intros H.
  apply elem_of_cons in H as [H|H]; [discriminate H|].
  apply elem_of_cons in H as [H|H]; [discriminate H|].
  apply elem_of_cons in H as [H|H]; [discriminate H|].
  by apply elem_of_nil in H.
Defined.

Lemma updateQuantity_commutes_witness :
  heap (updateQuantity Demo.body 1 80
          (updateQuantity Demo.body 2 40 Demo.loaded).2).2
  = heap (updateQuantity Demo.body 2 40
            (updateQuantity Demo.body 1 80 Demo.loaded).2).2.
Proof.
  apply (updateQuantity_commutes Demo.body 1 80 2 40 Demo.loaded).
  discriminate.
Defined.

Lemma updateQuantity_same_quantity_still_notifies_witness :
  heap (updateQuantity Demo.body 1 100 Demo.loaded).2 = heap Demo.loaded
  ∧ invoked_by Demo.loaded (updateQuantity Demo.body 1 100 Demo.loaded).2
      [Demo.render].
Proof.
  destruct (updateQuantity_same_quantity_still_notifies Demo.body 1
              Demo.loaded 1%positive Demo.apple) as (Hh & Hc & Hret).
  - vm_compute. reflexivity.
  - vm_compute. reflexivity.
  - split; [exact Hh|]. exact (Hc (Hret demo_well_behaved)).
Defined.

Lemma start_not_in_catalog_1 : ¬ in_catalog 1 Demo.start.
Proof. apply find_product_None. vm_compute. reflexivity. Defined.

Lemma addProduct_then_updateQuantity_witness :
  find_product 1 (addProduct Demo.body 1%positive Demo.start).2
  = Some 1%positive
  ∧ ∃ p',
      heap (updateQuantity Demo.body 1 80
              (addProduct Demo.body 1%positive Demo.start).2).2 !! 1%positive
      = Some p'
      ∧ quantity p' = 80 ∧ name p' = "Apple".
Proof.
  destruct (addProduct_then_updateQuantity Demo.body 1%positive Demo.apple 80
              Demo.start)
    as (Hfind & _ & (p' & Hp' & Hq & _ & Hname & _) & _).
  - vm_compute. reflexivity.
  - exact start_not_in_catalog_1.
  - split; [exact Hfind|]. exists p'.
    split; [exact Hp'|]. split; [exact Hq | exact Hname].
Defined.

Lemma render_shows_current_catalog_witness :
  env (mutate Demo.body (UpdateQuantity 1 80) Demo.loaded).2
  = Some (li_of <$> view (mutate Demo.body (UpdateQuantity 1 80) Demo.loaded).2).
Proof.
  destruct (render_shows_current_catalog (UpdateQuantity 1 80) Demo.loaded)
    as (_ & Hshown & _).
  - vm_compute. discriminate.
  - exact demo_in_catalog_1.
  - apply (Hshown [li_of Demo.apple; li_of Demo.banana]).
    vm_compute. reflexivity.
Defined.

(** * Further properties of the component examples *)

Section ButtonMore.

Context {T : Type}.
Variable String_of : T → string.

(** X11.  With a valid variant [Button] returns an element that shows
    [String(value)], passes [onClick] on as [onPress] (also when disabled),
    passes [disabled] on, and carries the disabled style exactly when
    [disabled] is [true]; which of the valid variants was given makes no
    difference to the element. *)
Theorem Button_element_ignores_variant (value : T) (onClick : option nat)
    (disabled : option bool) (v : option string) :
  Button.isValidVariant v = true →
  ∃ element,
    Button.Button String_of (Button.mkProps value onClick disabled v)
    = Ok element
    ∧ Button.text element = String_of value
    ∧ Button.onPress element = onClick
    ∧ Button.disabled_attr element = disabled
    ∧ Button.styles_button ∈ Button.style element
    ∧ (Button.styles_disabled ∈ Button.style element ↔ disabled = Some true)
    ∧ ∀ v', Button.isValidVariant v' = true →
        Button.Button String_of (Button.mkProps value onClick disabled v')
        = Ok element.
Proof.
  intros Hv. eexists. unfold Button.Button. cbn. rewrite Hv. cbn.
  split; [reflexivity|]. cbn.
  split; [done|]. split; [done|]. split; [done|].
  split; [|split].
  - destruct disabled as [[]|]; apply list_elem_of_here.
  - destruct disabled as [[]|]; cbn; split; try done.
    + intros _. apply list_elem_of_further, list_elem_of_here.
    + intros [=]%list_elem_of_singleton.
    + intros [=]%list_elem_of_singleton.
  - intros v' ->. done.
Qed.

End ButtonMore.

Lemma Button_element_ignores_variant_witness :
  Button.Button (λ s : string, s)
    (Button.mkProps "Save" (Some 1%nat) (Some true) (Some "primary"))
  = Button.Button (λ s : string, s)
      (Button.mkProps "Save" (Some 1%nat) (Some true) (Some "tertiary")).
Proof.
  destruct (Button_element_ignores_variant (λ s : string, s) "Save"
              (Some 1%nat) (Some true) (Some "primary"))
    as (element & Hel & _ & _ & _ & _ & _ & Hany).
  - reflexivity.
  - rewrite Hel. symmetry. apply Hany. reflexivity.
Defined.

Section InputFieldMore.

Import InputField.

Lemma handleChanges_snoc b vs v st :
  handleChanges b (vs ++ [v]) st = handleChange b v (handleChanges b vs st).
Proof. unfold handleChanges. by rewrite fold_left_app. Qed.

Lemma handleChanges_reported b vs st :
  reported (handleChanges b vs st)
  = if b then reported st ++ vs else reported st.
Proof.
  revert st. induction vs as [|v vs IH]; intros st.
  - cbn. destruct b; [by rewrite app_nil_r | done].
  - change (handleChanges b (v :: vs) st)
      with (handleChanges b vs (handleChange b v st)).
    rewrite IH. destruct b; cbn; [|done]. by rewrite <- app_assoc.
Qed.

(** X12.  After any number of changes the field holds the last text, the message
    is the one for the last text alone (earlier errors do not stick), and
    [onChange], when given, has been called with every text in order, the
    too-short ones included. *)
Theorem handleChanges_last_input b vs v st :
  value (handleChanges b (vs ++ [v]) st) = v
  ∧ errorMessage (handleChanges b (vs ++ [v]) st)
    = (if decide (String.length v < 5)%nat
       then getErrorMessage v "minLength" else EmptyString)
  ∧ reported (handleChanges b (vs ++ [v]) st)
    = if b then reported st ++ vs ++ [v] else reported st.
Proof.
  split; [|split].
  - by rewrite handleChanges_snoc.
  - rewrite handleChanges_snoc.
    destruct (handleChange_errorMessage b v (handleChanges b vs st))
      as [[Hlen ->]|[Hlen ->]]; case_decide; (done || lia).
  - apply handleChanges_reported.
Qed.

Context {number : Type}.
Variable toString : number → string.

Lemma getErrorMessage_minLength_nonempty v :
  getErrorMessage v "minLength" ≠ EmptyString.
Proof. by rewrite getErrorMessage_minLength. Qed.

(** X13.  The initial value is converted to text (a number through [toString], a
    string as it is) but not validated: the first render shows no message
    even for a text shorter than 5 characters, and the message appears only
    when the text is changed, be it to the very same text. *)
Theorem initial_value_is_not_validated (initialValue : string + number) :
  value (initial toString initialValue)
  = match initialValue with inl s => s | inr n => toString n end
  ∧ errorMessage (initial toString initialValue) = EmptyString
  ∧ ((String.length (getInitialValue toString initialValue) < 5)%nat →
       ∀ b,
         errorMessage
           (handleChange b (getInitialValue toString initialValue)
              (initial toString initialValue))
         ≠ EmptyString).
Proof.
  split; [done|]. split; [done|].
  intros Hlen b.
  destruct (handleChange_errorMessage b
              (getInitialValue toString initialValue)
              (initial toString initialValue)) as [[_ ->]|[Hge _]].
  - apply getErrorMessage_minLength_nonempty.
  - lia.
Qed.

End InputFieldMore.

Lemma initial_value_is_not_validated_witness :
  InputField.errorMessage
    (InputField.initial (λ n : Z, "42") (inr 42)) = EmptyString
  ∧ InputField.errorMessage
      (InputField.handleChange false "42"
         (InputField.initial (λ n : Z, "42") (inr 42)))
    ≠ EmptyString.
Proof.
  destruct (initial_value_is_not_validated (λ n : Z, "42") (inr 42))
    as (_ & Hnone & Hlater).
  split; [exact Hnone|].
  apply (Hlater ltac:(cbn; lia) false).
Defined.

Section ListMore.

Import ListComponent.

Variable String_of_other : JsValue → string.

Lemma typeof_string (v : JsValue) :
  typeof v = "string" ↔ ∃ s, v = JsString s.
Proof.
  split.
  - destruct v; try discriminate. eauto.
  - by intros [s ->].
Qed.

Lemma filterStrings_elem_of items v :
  v ∈ filterStrings items ↔ v ∈ items ∧ ∃ s, v = JsString s.
Proof.
  unfold filterStrings. rewrite list_elem_of_filter, typeof_string.
  tauto.
Qed.

Lemma filterStrings_strings (ss : list string) :
  filterStrings (JsString <$> ss) = JsString <$> ss.
Proof.
  unfold filterStrings. induction ss as [|s ss IH]; [done|].
  rewrite fmap_cons, filter_cons_True by done. by rewrite IH.
Qed.

Lemma filterStrings_texts items :
  JsString <$> (String_ String_of_other <$> filterStrings items)
  = filterStrings items.
Proof.
  unfold filterStrings. induction items as [|v items IH]; [done|].
  destruct (decide (typeof v = "string")) as [Hv|Hv].
  - rewrite filter_cons_True by done.
    apply typeof_string in Hv as [s ->]. cbn. by rewrite IH.
  - by rewrite filter_cons_False.
Qed.

(** X14.  [filterStrings] keeps exactly the strings among the items, in their
    order; a list of strings passes unchanged, and filtering twice is
    filtering once. *)
Theorem filterStrings_keeps_the_strings items :
  (∀ v, v ∈ filterStrings items ↔ v ∈ items ∧ ∃ s, v = JsString s)
  ∧ filterStrings items `sublist_of` items
  ∧ filterStrings (filterStrings items) = filterStrings items
  ∧ (∀ ss, filterStrings (JsString <$> ss) = JsString <$> ss).
Proof.
  split; [apply filterStrings_elem_of|].
  split; [apply sublist_filter|].
  split; [|apply filterStrings_strings].
  rewrite <- (filterStrings_texts items) at 1.
  by rewrite filterStrings_strings, filterStrings_texts.
Qed.

(** X15.  [List] renders nothing ([null]) exactly when [items] is empty.
    Otherwise it renders one text per string among the items, in order, and
    drops every other item without a trace, so that items of which none is a
    string give an empty list, not [null].  The [filter] prop has no
    effect. *)
Theorem List_shows_the_strings (props : Props) :
  (List String_of_other props = None ↔ items props = [])
  ∧ (∀ view, List String_of_other props = Some view →
       data view = filterStrings (items props)
       ∧ JsString <$> texts view = filterStrings (items props)
       ∧ ∀ s, s ∈ texts view ↔ JsString s ∈ items props)
  ∧ (∀ f, List String_of_other {| items := items props; filter_prop := f |}
          = List String_of_other props).
Proof.
  unfold List. split; [|split; [|done]].
  - destruct (items props) as [|v vs]; cbn; [done|].
    case_decide; [done | lia].
  - intros view Hview. case_decide; [|done].
    injection Hview as <-. cbn. split; [done|].
    split; [apply filterStrings_texts|].
    intros s. split.
    + intros (v & -> & Hv)%list_elem_of_fmap.
      by apply filterStrings_elem_of in Hv as [Hin [s' ->]].
    + intros Hin. apply list_elem_of_fmap. exists (JsString s).
      split; [done|]. apply filterStrings_elem_of. eauto.
Qed.

End ListMore.

Lemma List_shows_the_strings_witness :
  ListComponent.List (λ _, "other")
    (ListComponent.mkProps
       [ListComponent.JsNumber 1; ListComponent.JsString "a";
        ListComponent.JsNull; ListComponent.JsString "b"] None)
  = Some (ListComponent.mkView
            [ListComponent.JsString "a"; ListComponent.JsString "b"]
            ["a"; "b"])
  ∧ ListComponent.List (λ _, "other")
      (ListComponent.mkProps [ListComponent.JsNumber 1] None)
    ≠ None.
Proof.
  split; [reflexivity|].
  intros Hnone.
  apply (List_shows_the_strings (λ _, "other")
           (ListComponent.mkProps [ListComponent.JsNumber 1] None)) in Hnone.
  discriminate Hnone.
Defined.

(** * The catalog over a whole session *)

Section ViewModelSession.

Context {Env : Type}.
Variable body : ObsRef → list Product → Env → Result unit * Env.

Implicit Types (w : World Env) (l : Loc).

(** No call changes the id of an object. *)
Lemma call_has_id c w productId l :
  has_id (heap (call body c w).2) productId l = has_id (heap w) productId l.
Proof.
  destruct c as [[product|productId' newQuantity]|o|o]; [| |done|done].
  - unfold call, mutate.
    by destruct (addProduct_state body product w) as (-> & _).
  - unfold call, mutate.
    destruct (updateQuantity_state body productId' newQuantity w) as [-> _].
    destruct (find_product productId' w); [apply has_id_alter | done].
Qed.

Lemma script_has_id cs w productId l :
  has_id (heap (script body cs w)) productId l = has_id (heap w) productId l.
Proof.
  revert w. induction cs as [|c cs IH]; intros w; [done|].
  by rewrite script_cons, IH, call_has_id.
Qed.

Lemma find_app_Some {A} (P : A → bool) (xs ys : list A) (x : A) :
  List.find P xs = Some x → List.find P (xs ++ ys) = Some x.
Proof.
  induction xs as [|a xs IH]; [done|].
  cbn. by destruct (P a).
Qed.

(** X16.  Over any sequence of calls the catalog only grows at its end: the
    products that were there stay, in their slots and order, and the new
    ones are those of the [addProduct] calls.  An id that is resolved to an
    object stays resolved to that same object, whatever is added later, so
    every id that occurs keeps occurring. *)
Theorem catalog_is_append_only cs w :
  getProducts (script body cs w) = getProducts w ++ added cs
  ∧ getProducts w `prefix_of` getProducts (script body cs w)
  ∧ (∀ productId l,
       find_product productId w = Some l →
       find_product productId (script body cs w) = Some l)
  ∧ (∀ productId,
       in_catalog productId w → in_catalog productId (script body cs w)).
Proof.
  pose proof (script_getProducts body cs w) as Hps.
  assert (∀ productId l,
            find_product productId w = Some l →
            find_product productId (script body cs w) = Some l) as Hfind.
  { intros productId l Hl. unfold find_product.
    unfold getProducts in Hps. rewrite Hps.
    rewrite (find_ext _ (has_id (heap w) productId))
      by (intros l'; apply script_has_id).
    by apply find_app_Some. }
  split; [exact Hps|]. split; [|split; [exact Hfind|]].
  - rewrite Hps. by apply prefix_app_r.
  - intros productId [l Hl]%find_product_in_catalog.
    apply find_product_in_catalog. eauto.
Qed.

End ViewModelSession.

Lemma catalog_is_append_only_witness :
  find_product 5
    (script Demo.counting_body
       [Mutate (AddProduct 2%positive); RemoveObserver Demo.failing;
        Mutate (UpdateQuantity 5 0)]
       Demo.twins)
  = Some 1%positive.
Proof.
  apply (catalog_is_append_only Demo.counting_body
           [Mutate (AddProduct 2%positive); RemoveObserver Demo.failing;
            Mutate (UpdateQuantity 5 0)]
           Demo.twins).
  vm_compute. reflexivity.
Defined.
